(** * Geo-App frontend: the form-and-list screen of [src/App.tsx]

    The screen owns seven pieces of React state (the five Draft fields, the
    list of places and the busy flag) and four asynchronous handlers:
    [fetchPlaces], [getLocation], [takePhoto] and [handleSave].  Each handler
    is embedded as a computation in a small state-and-exception monad over a
    [World], which holds the screen state together with a chronological log
    of what the handler did to the outside: alerts shown, HTTP requests
    issued, and lines written with [console.error].

    Modelling conventions.
    - A handler runs from its first statement to its last without another
      handler interleaving at an [await]; each collaborator call is answered
      by a settled promise handed to the handler.
    - A JavaScript [number] is a binary64 float ([PrimFloat.float]).
    - A value that reaches the code through [res.json()] (TypeScript [any])
      is a [JSON] value and is never inspected by the code, so a [Place] is
      the parsed value as received; the list endpoint's parsed body is taken
      at the type of the state it is stored in ([Place[]]). *)

From Stdlib Require Import String List Bool PrimFloat.
Import ListNotations.
Local Open Scope string_scope.
Local Open Scope list_scope.

(** ** Values *)

(** What [JSON.parse] can produce, and what [JSON.stringify] is given. *)
#[local] Set Warnings "-register-all".
Inductive JSON : Type :=
| JNull
| JBool (b : bool)
| JNum (x : float)
| JStr (s : string)
| JArr (items : list JSON)
| JObj (fields : list (string * JSON)).

(** [type Place = { _id; title; description; latitude; longitude; photo?;
    createdAt? }] is a compile-time annotation on parsed response bodies. *)
Definition Place : Type := JSON.

(** A thrown JavaScript [Error]. *)
Record Exn : Type := mkExn { exn_name : string; exn_message : string }.

(** A settled promise. *)
Inductive Promise (A : Type) : Type :=
| Resolved (a : A)
| Rejected (e : Exn).
Arguments Resolved {A} a.
Arguments Rejected {A} e.

(** [p.catch(h)] with a handler that returns a plain value. *)
Definition promise_catch {A : Type} (p : Promise A) (h : Exn -> A) : Promise A :=
  match p with
  | Resolved a => Resolved a
  | Rejected e => Resolved (h e)
  end.

(** JavaScript truthiness of a string. *)
Definition truthy_string (s : string) : bool :=
  match s with
  | EmptyString => false
  | String _ _ => true
  end.

(** The string behind a truthy [string | null | undefined]; [None] when the
    value is [null], [undefined] or the empty string. *)
Definition as_truthy (v : option string) : option string :=
  match v with
  | Some s => if truthy_string s then Some s else None
  | None => None
  end.

(** [v == null] for a [number | null]. *)
Definition is_null {A : Type} (v : option A) : bool :=
  match v with
  | Some _ => false
  | None => true
  end.

(** ** Collaborators *)

Definition API_URL : string := "http://192.168.1.106:8080".

Inductive Method : Type := GET | POST.

(** The arguments of one [fetch] call.  [req_body] is the object handed to
    [JSON.stringify], before serialisation. *)
Record Request : Type := mkRequest {
  req_url : string;
  req_method : Method;
  req_headers : list (string * string);
  req_body : option JSON
}.

(** The part of a [fetch] response the screen reads: [res.ok] and
    [res.json()] at body type [T]. *)
Record Response (T : Type) : Type := mkResponse {
  ok : bool;
  json : Promise T
}.
Arguments mkResponse {T} ok json.
Arguments ok {T} r.
Arguments json {T} r.

(** Result of the two [request...PermissionsAsync] calls. *)
Record PermissionResponse : Type := mkPermission { status : string }.

(** [location.coords]. *)
Record Coords : Type := mkCoords { coords_latitude : float; coords_longitude : float }.

(** One entry of [result.assets]. *)
Record Asset : Type := mkAsset { uri : option string; base64 : option string }.

(** Result of [ImagePicker.launchCameraAsync]. *)
Record ImagePickerResult : Type := mkPickerResult {
  canceled : bool;
  assets : option (list Asset)
}.

(** ** Screen state and world *)

Record Screen : Type := mkScreen {
  title : string;
  description : string;
  latitude : option float;
  longitude : option float;
  photo : option string;
  places : list Place;
  loading : bool
}.

(** The state of the first render. *)
Definition initial_screen : Screen :=
  mkScreen "" "" None None None [] false.

Record Alert : Type := mkAlert { alert_title : string; alert_message : string }.

(** One argument of a [console.error] call. *)
Inductive LogArg : Type :=
| LStr (s : string)
| LVal (v : JSON)
| LExn (e : Exn).

Record World : Type := mkWorld {
  screen : Screen;
  alerts : list Alert;
  requests : list Request;
  console : list (list LogArg)
}.

Definition initial_world : World := mkWorld initial_screen [] [] [].

(** ** The handler monad *)

Inductive Completion (A : Type) : Type :=
| Normal (a : A)
| Throw (e : Exn).
Arguments Normal {A} a.
Arguments Throw {A} e.

Definition M (A : Type) : Type := World -> Completion A * World.

Definition ret {A : Type} (a : A) : M A := fun w => (Normal a, w).

Definition bind {A B : Type} (c : M A) (k : A -> M B) : M B :=
  fun w =>
    match c w with
    | (Normal a, w') => k a w'
    | (Throw e, w') => (Throw e, w')
    end.

Declare Scope handler_scope.
Delimit Scope handler_scope with handler.
Notation "x <- c ;; k" := (bind c (fun x => k))
  (at level 100, c at next level, right associativity) : handler_scope.
Notation "c ;; k" := (bind c (fun _ => k))
  (at level 100, right associativity) : handler_scope.
Local Open Scope handler_scope.

(** [await p] *)
Definition await {A : Type} (p : Promise A) : M A :=
  fun w =>
    match p with
    | Resolved a => (Normal a, w)
    | Rejected e => (Throw e, w)
    end.

(** [try { body } catch (error) { handler error }] *)
Definition try_catch {A : Type} (body : M A) (handler : Exn -> M A) : M A :=
  fun w =>
    match body w with
    | (Normal a, w') => (Normal a, w')
    | (Throw e, w') => handler e w'
    end.

(** [try { body } finally { cleanup }] *)
Definition try_finally {A : Type} (body : M A) (cleanup : M unit) : M A :=
  fun w =>
    match body w with
    | (r, w') =>
        match cleanup w' with
        | (Normal _, w'') => (r, w'')
        | (Throw e, w'') => (Throw e, w'')
        end
    end.

Definition update_screen (f : Screen -> Screen) : M unit :=
  fun w => (Normal tt, mkWorld (f (screen w)) (alerts w) (requests w) (console w)).

Definition get_screen : M Screen := fun w => (Normal (screen w), w).

(** [Alert.alert(t, m)] *)
Definition Alert_alert (t m : string) : M unit :=
  fun w => (Normal tt,
            mkWorld (screen w) (alerts w ++ [mkAlert t m]) (requests w) (console w)).

(** [console.error(...args)] *)
Definition console_error (args : list LogArg) : M unit :=
  fun w => (Normal tt,
            mkWorld (screen w) (alerts w) (requests w) (console w ++ [args])).

(** [await fetch(...)]: the call is recorded, then the collaborator answers. *)
Definition call_fetch {T : Type} (net : Request -> Promise (Response T))
    (rq : Request) : M (Response T) :=
  fun w =>
    await (net rq)
      (mkWorld (screen w) (alerts w) (requests w ++ [rq]) (console w)).

Definition run {A : Type} (c : M A) (w : World) : Completion A := fst (c w).
Definition exec {A : Type} (c : M A) (w : World) : World := snd (c w).

(** ** State setters *)

Definition setTitle (v : string) : M unit :=
  update_screen (fun s =>
    mkScreen v (description s) (latitude s) (longitude s) (photo s) (places s) (loading s)).

Definition setDescription (v : string) : M unit :=
  update_screen (fun s =>
    mkScreen (title s) v (latitude s) (longitude s) (photo s) (places s) (loading s)).

Definition setLatitude (v : option float) : M unit :=
  update_screen (fun s =>
    mkScreen (title s) (description s) v (longitude s) (photo s) (places s) (loading s)).

Definition setLongitude (v : option float) : M unit :=
  update_screen (fun s =>
    mkScreen (title s) (description s) (latitude s) v (photo s) (places s) (loading s)).

Definition setPhoto (v : option string) : M unit :=
  update_screen (fun s =>
    mkScreen (title s) (description s) (latitude s) (longitude s) v (places s) (loading s)).

(** [setPlaces(updater)]; [setPlaces(v)] is [setPlaces (fun _ => v)]. *)
Definition setPlaces (updater : list Place -> list Place) : M unit :=
  update_screen (fun s =>
    mkScreen (title s) (description s) (latitude s) (longitude s) (photo s)
             (updater (places s)) (loading s)).

Definition setLoading (v : bool) : M unit :=
  update_screen (fun s =>
    mkScreen (title s) (description s) (latitude s) (longitude s) (photo s) (places s) v).

(** ** The handlers *)

Definition places_url : string := (API_URL ++ "/api/places")%string.

(** [fetch(`${API_URL}/api/places`)] *)
Definition list_request : Request := mkRequest places_url GET [] None.

Definition alert_load_failed : Alert :=
  mkAlert "Erro" "Não foi possível carregar os registros".

(** [fetchPlaces], lines 31-40. *)
Definition fetchPlaces (net : Request -> Promise (Response (list Place))) : M unit :=
  try_catch
    (res <- call_fetch net list_request ;;
     data <- await (json res) ;;
     setPlaces (fun _ => data))
    (fun error =>
       console_error [LExn error] ;;
       Alert_alert "Erro" "Não foi possível carregar os registros").

Definition alert_location_denied : Alert :=
  mkAlert "Permissão negada" "É necessário permitir o acesso à localização.".

(** [getLocation], lines 42-52. *)
Definition getLocation (requestForegroundPermissionsAsync : Promise PermissionResponse)
    (getCurrentPositionAsync : Promise Coords) : M unit :=
  perm <- await requestForegroundPermissionsAsync ;;
  if negb (String.eqb (status perm) "granted") then
    Alert_alert "Permissão negada" "É necessário permitir o acesso à localização."
  else
    coords <- await getCurrentPositionAsync ;;
    setLatitude (Some (coords_latitude coords)) ;;
    setLongitude (Some (coords_longitude coords)).

Definition alert_camera_denied : Alert :=
  mkAlert "Permissão negada" "É necessário permitir o uso da câmera.".

(** [result.assets && result.assets.length > 0], then [result.assets[0]]. *)
Definition first_asset (r : ImagePickerResult) : option Asset :=
  match assets r with
  | Some (asset :: _) => Some asset
  | Some [] => None
  | None => None
  end.

(** [takePhoto], lines 54-76. *)
Definition takePhoto (requestCameraPermissionsAsync : Promise PermissionResponse)
    (launchCameraAsync : Promise ImagePickerResult) : M unit :=
  perm <- await requestCameraPermissionsAsync ;;
  if negb (String.eqb (status perm) "granted") then
    Alert_alert "Permissão negada" "É necessário permitir o uso da câmera."
  else
    result <- await launchCameraAsync ;;
    if negb (canceled result) then
      match first_asset result with
      | Some asset =>
          match as_truthy (base64 asset) with
          | Some data => setPhoto (Some ("data:image/jpeg;base64," ++ data)%string)
          | None =>
              match as_truthy (uri asset) with
              | Some u => setPhoto (Some u)
              | None => ret tt
              end
          end
      | None => ret tt
      end
    else ret tt.

(** [!title || !description || latitude == null || longitude == null] *)
Definition missing_required (s : Screen) : bool :=
  negb (truthy_string (title s)) || negb (truthy_string (description s))
  || is_null (latitude s) || is_null (longitude s).

Definition json_of_number (v : option float) : JSON :=
  match v with
  | Some x => JNum x
  | None => JNull
  end.

Definition json_of_string (v : option string) : JSON :=
  match v with
  | Some x => JStr x
  | None => JNull
  end.

(** The object literal [{ title, description, latitude, longitude, photo }]. *)
Definition draft_payload (s : Screen) : JSON :=
  JObj [("title", JStr (title s));
        ("description", JStr (description s));
        ("latitude", json_of_number (latitude s));
        ("longitude", json_of_number (longitude s));
        ("photo", json_of_string (photo s))].

Definition save_request (s : Screen) : Request :=
  mkRequest places_url POST [("Content-Type", "application/json")]
            (Some (draft_payload s)).

Definition alert_required_fields : Alert :=
  mkAlert "Campos obrigatórios" "Preencha título, descrição e localização.".
Definition alert_save_failed : Alert :=
  mkAlert "Erro" "Falha ao salvar o registro.".
Definition alert_connection_failed : Alert :=
  mkAlert "Erro" "Falha na conexão com o backend.".
Definition alert_saved : Alert :=
  mkAlert "Sucesso" "Registro salvo com sucesso!".

(** [handleSave], lines 78-121.  The [return] of line 104 sits inside the
    [try], so the [finally] of line 118 still runs after it. *)
Definition handleSave (net : Request -> Promise (Response Place)) : M unit :=
  s <- get_screen ;;
  if missing_required s then
    Alert_alert "Campos obrigatórios" "Preencha título, descrição e localização."
  else
    try_finally
      (try_catch
         (setLoading true ;;
          res <- call_fetch net (save_request s) ;;
          if negb (ok res) then
            errorData <- await (promise_catch (json res) (fun _ => JObj [])) ;;
            console_error [LStr "Erro ao salvar"; LVal errorData] ;;
            Alert_alert "Erro" "Falha ao salvar o registro."
          else
            created <- await (json res) ;;
            setPlaces (fun prev => created :: prev) ;;
            setTitle "" ;;
            setDescription "" ;;
            setLatitude None ;;
            setLongitude None ;;
            setPhoto None ;;
            Alert_alert "Sucesso" "Registro salvo com sucesso!")
         (fun error =>
            console_error [LExn error] ;;
            Alert_alert "Erro" "Falha na conexão com o backend."))
      (setLoading false).

(** The Draft part of the screen state. *)
Definition draft (s : Screen) : string * string * option float * option float * option string :=
  (title s, description s, latitude s, longitude s, photo s).

Definition empty_draft : string * string * option float * option float * option string :=
  ("", "", None, None, None).

(** The screen after the busy flag has been raised and released. *)
Definition released (s : Screen) : Screen :=
  mkScreen (title s) (description s) (latitude s) (longitude s) (photo s)
           (places s) false.

(** The body parsed out of a non-success response, as line 101 sees it. *)
Definition error_data (res : Response Place) : JSON :=
  match json res with
  | Resolved v => v
  | Rejected _ => JObj []
  end.

(** ** What the spec calls validation *)

(** Title and description non-empty, both coordinates present. *)
Definition passes_validation (s : Screen) : Prop :=
  title s <> "" /\ description s <> "" /\ latitude s <> None /\ longitude s <> None.

(** ** Sample data *)

(* Decimal literals denote the nearest binary64 value, as they do in
   JavaScript. *)
#[local] Set Warnings "-inexact-float".

(** The Draft of the spec's end-to-end example. *)
Definition pothole_screen : Screen :=
  mkScreen "Pothole" "Large crack on 5th Ave" (Some 40.712%float)
           (Some (-74.006)%float) None [] false.

(** The Record the server answers with in that example. *)
Definition pothole_record : Place :=
  JObj [("_id", JStr "r1");
        ("title", JStr "Pothole");
        ("description", JStr "Large crack on 5th Ave");
        ("latitude", JNum 40.712%float);
        ("longitude", JNum (-74.006)%float);
        ("photo", JNull);
        ("createdAt", JStr "2024-01-01T00:00:00Z")].

Definition pothole_world : World := mkWorld pothole_screen [] [] [].

(** A Draft at latitude 0, longitude 0. *)
Definition null_island_world : World :=
  mkWorld (mkScreen "Buoy" "Station 13010" (Some 0%float) (Some 0%float) None [] false)
          [] [] [].

Definition network_down : Exn := mkExn "TypeError" "Network request failed".
Definition bad_json : Exn := mkExn "SyntaxError" "JSON Parse error: Unexpected EOF".

(** Collaborator behaviours used in the worked examples. *)
Definition net_unreachable {T : Type} : Request -> Promise (Response T) :=
  fun _ => Rejected network_down.

(** 201 with the created Record. *)
Definition net_created : Request -> Promise (Response Place) :=
  fun _ => Resolved (mkResponse true (Resolved pothole_record)).

(** 500 with an empty body: [res.json()] rejects. *)
Definition net_error_no_body : Request -> Promise (Response Place) :=
  fun _ => Resolved (mkResponse false (Rejected bad_json)).

(** 422 with a JSON error document. *)
Definition net_error_json : Request -> Promise (Response Place) :=
  fun _ => Resolved (mkResponse false (Resolved (JObj [("error", JStr "invalid")]))).

(** The list endpoint answering 500 with a JSON array as body. *)
Definition list_error_with_body : Request -> Promise (Response (list Place)) :=
  fun _ => Resolved (mkResponse false (Resolved [pothole_record])).

(** The list endpoint answering 500 with a body that is not JSON. *)
Definition list_error_no_body : Request -> Promise (Response (list Place)) :=
  fun _ => Resolved (mkResponse false (Rejected bad_json)).

Definition permission_granted : PermissionResponse := mkPermission "granted".
Definition permission_denied : PermissionResponse := mkPermission "denied".

Definition new_york : Coords := mkCoords 40.712%float (-74.006)%float.

Definition capture_canceled : ImagePickerResult := mkPickerResult true None.

Definition asset_with_base64 : Asset :=
  mkAsset (Some "file:///cache/ImagePicker/a1.jpg") (Some "/9j/4AAQSkZJRg==").
Definition asset_uri_only : Asset :=
  mkAsset (Some "file:///cache/ImagePicker/a1.jpg") None.
Definition asset_bare : Asset := mkAsset None None.

Definition capture_of (a : Asset) : ImagePickerResult := mkPickerResult false (Some [a]).

(** A screen that already holds a photo and one listed place. *)
Definition busy_world : World :=
  mkWorld (mkScreen "Pothole" "Large crack on 5th Ave" (Some 40.712%float)
                    (Some (-74.006)%float) (Some "file:///old.jpg")
                    [pothole_record] false)
          [] [] [].

(** What the claims say about a [string | null | undefined] field. *)
Definition carries (v : option string) (d : string) : Prop := v = Some d /\ d <> "".
Definition absent (v : option string) : Prop := v = None \/ v = Some "".

(** ** The screen as an event loop *)

(** What the user can do on the rendered screen.  Each press carries the
    answers the collaborators give during that run of the handler. *)
Inductive Event : Type :=
| ChangeTitle (text : string)
| ChangeDescription (text : string)
| PressLocation (permission : Promise PermissionResponse) (position : Promise Coords)
| PressPhoto (permission : Promise PermissionResponse) (shot : Promise ImagePickerResult)
| PressSave (net : Request -> Promise (Response Place)).

(** Lines 165, 177, 186, 197 and 203-206: [onChangeText={setTitle}],
    [onChangeText={setDescription}], [onPress={getLocation}],
    [onPress={takePhoto}], and [onPress={handleSave}] on a button that is
    [disabled={loading}]. *)
Definition step (w : World) (e : Event) : World :=
  match e with
  | ChangeTitle text => exec (setTitle text) w
  | ChangeDescription text => exec (setDescription text) w
  | PressLocation permission position => exec (getLocation permission position) w
  | PressPhoto permission shot => exec (takePhoto permission shot) w
  | PressSave net => if loading (screen w) then w else exec (handleSave net) w
  end.

(** Lines 27-29: the effect of the first render calls [fetchPlaces]. *)
Definition mount (net : Request -> Promise (Response (list Place))) : World :=
  exec (fetchPlaces net) initial_world.

(** The world after the mount and a sequence of user events. *)
Definition session (net : Request -> Promise (Response (list Place)))
    (events : list Event) : World :=
  fold_left step events (mount net).

(** ** Effects of one handler run *)

(** The three things one run of [handleSave] can do to the world. *)
Inductive SaveEffect (w : World) : World -> Prop :=
| SaveBlocked :
    missing_required (screen w) = true ->
    SaveEffect w (mkWorld (screen w) (alerts w ++ [alert_required_fields])
                          (requests w) (console w))
| SaveFailed (a : Alert) (line : list LogArg) :
    missing_required (screen w) = false ->
    a = alert_save_failed \/ a = alert_connection_failed ->
    SaveEffect w (mkWorld (released (screen w)) (alerts w ++ [a])
                          (requests w ++ [save_request (screen w)])
                          (console w ++ [line]))
| SaveDone (created : Place) :
    missing_required (screen w) = false ->
    SaveEffect w (mkWorld (mkScreen "" "" None None None
                                    (created :: places (screen w)) false)
                          (alerts w ++ [alert_saved])
                          (requests w ++ [save_request (screen w)])
                          (console w)).

(** The screen with another photo. *)
Definition with_photo (s : Screen) (p : option string) : Screen :=
  mkScreen (title s) (description s) (latitude s) (longitude s) p (places s) (loading s).

(** The screen with other coordinates. *)
Definition with_coords (s : Screen) (lat lon : option float) : Screen :=
  mkScreen (title s) (description s) lat lon (photo s) (places s) (loading s).

(** ** State invariants *)

(** Latitude and longitude are both null or both set. *)
Definition coordinates_paired (s : Screen) : Prop :=
  latitude s = None <-> longitude s = None.

(** The photo is null or a non-empty string. *)
Definition photo_usable (s : Screen) : Prop := photo s <> Some "".

(** The list request, or the POST of a Draft that passes validation. *)
Definition well_formed_request (rq : Request) : Prop :=
  rq = list_request \/ exists s, passes_validation s /\ rq = save_request s.

(** More sample data. *)
Definition position_unavailable : Exn :=
  mkExn "Error" "Location request failed due to unsatisfied device settings".

(** 200 whose body is cut short. *)
Definition net_truncated_success : Request -> Promise (Response Place) :=
  fun _ => Resolved (mkResponse true (Rejected bad_json)).

Definition capture_without_assets : ImagePickerResult := mkPickerResult false (Some []).

(** ** Basic facts about the embedding *)

Lemma truthy_string_false (s : string) : truthy_string s = false <-> s = "".
Proof.
  destruct s as [|c s]; simpl; split; intro H; try reflexivity; discriminate H.
Qed.

Lemma truthy_string_true (s : string) : truthy_string s = true <-> s <> "".
Proof.
  destruct s as [|c s]; simpl; split; intro H.
  - discriminate H.
  - now contradiction H.
  - discriminate.
  - reflexivity.
Qed.

Lemma is_null_true {A : Type} (v : option A) : is_null v = true <-> v = None.
Proof. destruct v; simpl; split; intro H; try reflexivity; discriminate H. Qed.

Lemma is_null_false {A : Type} (v : option A) : is_null v = false <-> v <> None.
Proof.
  destruct v; simpl; split; intro H; try reflexivity; try discriminate.
  now contradiction H.
Qed.

(** The guard of line 79 holds exactly when some required field is missing. *)
Lemma missing_required_true (s : Screen) :
  missing_required s = true <->
  title s = "" \/ description s = "" \/ latitude s = None \/ longitude s = None.
Proof.
  unfold missing_required.
  rewrite !orb_true_iff, !negb_true_iff, !truthy_string_false, !is_null_true.
  tauto.
Qed.

(** ... and fails exactly on the Drafts that pass validation. *)
Lemma missing_required_false (s : Screen) :
  missing_required s = false <-> passes_validation s.
Proof.
  unfold missing_required, passes_validation.
  rewrite !orb_false_iff, !negb_false_iff, !truthy_string_true, !is_null_false.
  tauto.
Qed.

Lemma as_truthy_some (v : option string) (d : string) :
  as_truthy v = Some d <-> v = Some d /\ d <> "".
Proof.
  destruct v as [s|]; simpl.
  - destruct s as [|c s]; simpl; split.
    + discriminate.
    + intros [E N]. injection E as <-. now contradiction N.
    + intro E. injection E as <-. split; [reflexivity | discriminate].
    + intros [E _]. exact E.
  - split; [discriminate | intros [E _]; discriminate E].
Qed.

Lemma as_truthy_none (v : option string) :
  as_truthy v = None <-> v = None \/ v = Some "".
Proof.
  destruct v as [s|]; simpl.
  - destruct s as [|c s]; simpl; split.
    + intros _. right. reflexivity.
    + reflexivity.
    + discriminate.
    + intros [E|E]; discriminate E.
  - split; [intros _; left; reflexivity | reflexivity].
Qed.

(** [setLoading false] never throws, so a [finally] that only releases the
    busy flag keeps the completion of the body. *)
Lemma finally_release {A : Type} (body : M A) (w : World) :
  run (try_finally body (setLoading false)) w = run body w /\
  loading (screen (exec (try_finally body (setLoading false)) w)) = false.
Proof.
  unfold run, exec, try_finally. destruct (body w) as [r w']. simpl. split; reflexivity.
Qed.

(** ** [handleSave]: one equation per path *)

Section HandleSave.

Variable net : Request -> Promise (Response Place).
Variable w : World.

Lemma handleSave_invalid :
  missing_required (screen w) = true ->
  handleSave net w =
  (Normal tt,
   mkWorld (screen w) (alerts w ++ [alert_required_fields]) (requests w) (console w)).
Proof.
  intro Hguard. unfold handleSave, bind, get_screen. rewrite Hguard. reflexivity.
Qed.

Lemma handleSave_transport_failure (e : Exn) :
  missing_required (screen w) = false ->
  net (save_request (screen w)) = Rejected e ->
  handleSave net w =
  (Normal tt,
   mkWorld (released (screen w))
           (alerts w ++ [alert_connection_failed])
           (requests w ++ [save_request (screen w)])
           (console w ++ [[LExn e]])).
Proof.
  intros Hguard Hnet.
  unfold handleSave, bind, get_screen. rewrite Hguard.
  unfold try_finally, try_catch, bind, call_fetch. simpl. rewrite Hnet. reflexivity.
Qed.

Lemma handleSave_server_rejected (res : Response Place) :
  missing_required (screen w) = false ->
  net (save_request (screen w)) = Resolved res ->
  ok res = false ->
  handleSave net w =
  (Normal tt,
   mkWorld (released (screen w))
           (alerts w ++ [alert_save_failed])
           (requests w ++ [save_request (screen w)])
           (console w ++ [[LStr "Erro ao salvar"; LVal (error_data res)]])).
Proof.
  intros Hguard Hnet Hok.
  unfold handleSave, bind, get_screen. rewrite Hguard.
  unfold try_finally, try_catch, bind, call_fetch, error_data. simpl.
  rewrite Hnet. simpl. rewrite Hok. simpl.
  destruct (json res) as [v|e]; reflexivity.
Qed.

Lemma handleSave_created (res : Response Place) (created : Place) :
  missing_required (screen w) = false ->
  net (save_request (screen w)) = Resolved res ->
  ok res = true ->
  json res = Resolved created ->
  handleSave net w =
  (Normal tt,
   mkWorld (mkScreen "" "" None None None (created :: places (screen w)) false)
           (alerts w ++ [alert_saved])
           (requests w ++ [save_request (screen w)])
           (console w)).
Proof.
  intros Hguard Hnet Hok Hjson.
  unfold handleSave, bind, get_screen. rewrite Hguard.
  unfold try_finally, try_catch, bind, call_fetch. simpl.
  rewrite Hnet. simpl. rewrite Hok. simpl. rewrite Hjson. reflexivity.
Qed.

Lemma handleSave_unreadable_success (res : Response Place) (e : Exn) :
  missing_required (screen w) = false ->
  net (save_request (screen w)) = Resolved res ->
  ok res = true ->
  json res = Rejected e ->
  handleSave net w =
  (Normal tt,
   mkWorld (released (screen w))
           (alerts w ++ [alert_connection_failed])
           (requests w ++ [save_request (screen w)])
           (console w ++ [[LExn e]])).
Proof.
  intros Hguard Hnet Hok Hjson.
  unfold handleSave, bind, get_screen. rewrite Hguard.
  unfold try_finally, try_catch, bind, call_fetch. simpl.
  rewrite Hnet. simpl. rewrite Hok. simpl. rewrite Hjson. reflexivity.
Qed.

End HandleSave.

(** X1.  [handleSave] handles every exception it can meet: it always completes
    normally. *)
Lemma handleSave_never_throws net w : run (handleSave net) w = Normal tt.
Proof.
  unfold run.
  destruct (missing_required (screen w)) eqn:Hguard.
  - now rewrite handleSave_invalid.
  - destruct (net (save_request (screen w))) as [res|e] eqn:Hnet.
    + destruct (ok res) eqn:Hok.
      * destruct (json res) as [created|e] eqn:Hjson.
        -- now rewrite (handleSave_created net w res created).
        -- now rewrite (handleSave_unreadable_success net w res e).
      * now rewrite (handleSave_server_rejected net w res).
    + now rewrite (handleSave_transport_failure net w e).
Qed.

(** Once validation has passed the busy flag is released on every path. *)
Lemma handleSave_releases_busy_flag net w :
  missing_required (screen w) = false ->
  loading (screen (exec (handleSave net) w)) = false.
Proof.
  intro Hguard. unfold exec, handleSave, bind, get_screen. rewrite Hguard.
  apply finally_release.
Qed.

(** Exactly one alert per call. *)
Lemma handleSave_one_alert net w :
  exists a, alerts (exec (handleSave net) w) = alerts w ++ [a].
Proof.
  unfold exec.
  destruct (missing_required (screen w)) eqn:Hguard.
  - rewrite handleSave_invalid by assumption. eexists. reflexivity.
  - destruct (net (save_request (screen w))) as [res|e] eqn:Hnet.
    + destruct (ok res) eqn:Hok.
      * destruct (json res) as [created|e] eqn:Hjson.
        -- rewrite (handleSave_created net w res created) by assumption.
           eexists. reflexivity.
        -- rewrite (handleSave_unreadable_success net w res e) by assumption.
           eexists. reflexivity.
      * rewrite (handleSave_server_rejected net w res) by assumption.
        eexists. reflexivity.
    + rewrite (handleSave_transport_failure net w e) by assumption.
      eexists. reflexivity.
Qed.

(** ** Submit: validation *)

(** C1.  Whenever the title is empty, or the description is empty, or the
    latitude is null, or the longitude is null, [handleSave] returns after
    showing the required-fields alert: no request is issued, and the screen
    state (Draft, list and busy flag) is what it was. *)
Theorem handleSave_missing_field net w :
  title (screen w) = "" \/ description (screen w) = "" \/
  latitude (screen w) = None \/ longitude (screen w) = None ->
  run (handleSave net) w = Normal tt /\
  alerts (exec (handleSave net) w) = alerts w ++ [alert_required_fields] /\
  requests (exec (handleSave net) w) = requests w /\
  screen (exec (handleSave net) w) = screen w.
Proof.
  intro Hmissing. apply missing_required_true in Hmissing.
  unfold run, exec. rewrite (handleSave_invalid net w Hmissing). simpl.
  repeat split.
Qed.

Lemma handleSave_missing_field_witness :
  latitude (screen initial_world) = None /\
  alerts (exec (handleSave net_created) initial_world) = [alert_required_fields] /\
  requests (exec (handleSave net_created) initial_world) = [] /\
  screen (exec (handleSave net_created) initial_world) = initial_screen.
Proof.
  split; [reflexivity |].
  apply (handleSave_missing_field net_created initial_world).
  right. right. left. reflexivity.
Defined.

(** C8.  The coordinate test is against null only: a Draft with non-empty
    title and description whose latitude or longitude is the number 0 is
    not stopped by the guard, and [handleSave] issues the POST. *)
Theorem handleSave_zero_coordinate net w lat lon :
  title (screen w) <> "" ->
  description (screen w) <> "" ->
  latitude (screen w) = Some lat ->
  longitude (screen w) = Some lon ->
  lat = 0%float \/ lon = 0%float ->
  missing_required (screen w) = false /\
  requests (exec (handleSave net) w) = requests w ++ [save_request (screen w)].
Proof.
  intros Ht Hd Hlat Hlon _.
  assert (Hguard : missing_required (screen w) = false).
  { apply missing_required_false. unfold passes_validation.
    rewrite Hlat, Hlon. repeat split; try assumption; discriminate. }
  split; [exact Hguard |].
  unfold exec.
  destruct (net (save_request (screen w))) as [res|e] eqn:Hnet.
  - destruct (ok res) eqn:Hok.
    + destruct (json res) as [created|e] eqn:Hjson.
      * now rewrite (handleSave_created net w res created).
      * now rewrite (handleSave_unreadable_success net w res e).
    + now rewrite (handleSave_server_rejected net w res).
  - now rewrite (handleSave_transport_failure net w e).
Qed.

Lemma handleSave_zero_coordinate_witness :
  missing_required (screen null_island_world) = false /\
  requests (exec (handleSave net_created) null_island_world) =
  [save_request (screen null_island_world)].
Proof.
  apply (handleSave_zero_coordinate net_created null_island_world 0%float 0%float).
  - discriminate.
  - discriminate.
  - reflexivity.
  - reflexivity.
  - left. reflexivity.
Defined.

(** ** Submit: the three outcomes of the POST *)

(** C2.  For a Draft that passes validation, when the POST answers with a
    success status and a body that parses to a Record, [handleSave] puts
    exactly that Record at the head of the list, in front of the Records
    already listed and in their order, resets the Draft to empty title,
    empty description, null coordinates and null photo, and shows the
    success alert. *)
Theorem handleSave_success net w res created :
  passes_validation (screen w) ->
  net (save_request (screen w)) = Resolved res ->
  ok res = true ->
  json res = Resolved created ->
  places (screen (exec (handleSave net) w)) = created :: places (screen w) /\
  draft (screen (exec (handleSave net) w)) = empty_draft /\
  alerts (exec (handleSave net) w) = alerts w ++ [alert_saved].
Proof.
  intros Hvalid Hnet Hok Hjson. apply missing_required_false in Hvalid.
  unfold exec. rewrite (handleSave_created net w res created Hvalid Hnet Hok Hjson).
  simpl. repeat split.
Qed.

Lemma handleSave_success_witness :
  places (screen (exec (handleSave net_created) busy_world)) =
    [pothole_record; pothole_record] /\
  draft (screen (exec (handleSave net_created) busy_world)) = ("", "", None, None, None) /\
  alerts (exec (handleSave net_created) busy_world) = [alert_saved].
Proof.
  apply (handleSave_success net_created busy_world
           (mkResponse true (Resolved pothole_record)) pothole_record).
  - unfold passes_validation. simpl. repeat split; discriminate.
  - reflexivity.
  - reflexivity.
  - reflexivity.
Defined.

(** C3.  For a Draft that passes validation, when the POST answers with a
    non-success status, every Draft field (title, description, latitude,
    longitude, photo) and the list are what they were before the call, and
    the busy flag is false once [handleSave] has completed. *)
Theorem handleSave_rejected_frame net w res :
  passes_validation (screen w) ->
  net (save_request (screen w)) = Resolved res ->
  ok res = false ->
  title (screen (exec (handleSave net) w)) = title (screen w) /\
  description (screen (exec (handleSave net) w)) = description (screen w) /\
  latitude (screen (exec (handleSave net) w)) = latitude (screen w) /\
  longitude (screen (exec (handleSave net) w)) = longitude (screen w) /\
  photo (screen (exec (handleSave net) w)) = photo (screen w) /\
  places (screen (exec (handleSave net) w)) = places (screen w) /\
  loading (screen (exec (handleSave net) w)) = false.
Proof.
  intros Hvalid Hnet Hok. apply missing_required_false in Hvalid.
  unfold exec. rewrite (handleSave_server_rejected net w res Hvalid Hnet Hok).
  simpl. repeat split.
Qed.

Lemma handleSave_rejected_frame_witness :
  screen (exec (handleSave net_error_json) busy_world) = screen busy_world.
Proof.
  pose proof (handleSave_rejected_frame net_error_json busy_world
                (mkResponse false (Resolved (JObj [("error", JStr "invalid")])))) as H.
  destruct H as (Ht & Hd & Hlat & Hlon & Hp & Hl & Hb).
  - unfold passes_validation. simpl. repeat split; discriminate.
  - reflexivity.
  - reflexivity.
  - destruct (screen (exec (handleSave net_error_json) busy_world)) as [t d la lo p l b].
    simpl in *. subst. reflexivity.
Defined.

(** C5.  For a Draft that passes validation, the two failure modes of the
    POST are told apart: a response with a non-success status adds the
    save-failed alert and nothing else, a [fetch] that rejects adds the
    connection-failed alert and nothing else, and the two alerts differ. *)
Theorem handleSave_failure_alerts net w :
  passes_validation (screen w) ->
  (forall res, net (save_request (screen w)) = Resolved res -> ok res = false ->
     alerts (exec (handleSave net) w) = alerts w ++ [alert_save_failed]) /\
  (forall e, net (save_request (screen w)) = Rejected e ->
     alerts (exec (handleSave net) w) = alerts w ++ [alert_connection_failed]) /\
  alert_save_failed <> alert_connection_failed.
Proof.
  intro Hvalid. apply missing_required_false in Hvalid.
  split; [| split].
  - intros res Hnet Hok. unfold exec.
    now rewrite (handleSave_server_rejected net w res Hvalid Hnet Hok).
  - intros e Hnet. unfold exec.
    now rewrite (handleSave_transport_failure net w e Hvalid Hnet).
  - discriminate.
Qed.

Lemma handleSave_failure_alerts_witness :
  alerts (exec (handleSave net_error_no_body) pothole_world) = [alert_save_failed] /\
  alerts (exec (handleSave net_unreachable) pothole_world) = [alert_connection_failed].
Proof.
  assert (Hvalid : passes_validation (screen pothole_world)).
  { unfold passes_validation. simpl. repeat split; discriminate. }
  split.
  - destruct (handleSave_failure_alerts net_error_no_body pothole_world Hvalid)
      as (Hstatus & _ & _).
    apply (Hstatus (mkResponse false (Rejected bad_json))); reflexivity.
  - destruct (handleSave_failure_alerts net_unreachable pothole_world Hvalid)
      as (_ & Hthrown & _).
    apply (Hthrown network_down); reflexivity.
Defined.

(** C9.  For a Draft that passes validation and a POST answered with a
    non-success status, [handleSave] completes without throwing whatever the
    response body is: when [res.json()] rejects (no body, or a body that is
    not JSON) the logged error data is the empty object, when it resolves the
    logged data is the parsed value, and in both cases the save-failed alert
    is the one alert shown. *)
Theorem handleSave_error_body net w res :
  passes_validation (screen w) ->
  net (save_request (screen w)) = Resolved res ->
  ok res = false ->
  run (handleSave net) w = Normal tt /\
  alerts (exec (handleSave net) w) = alerts w ++ [alert_save_failed] /\
  (forall e, json res = Rejected e ->
     console (exec (handleSave net) w) =
     console w ++ [[LStr "Erro ao salvar"; LVal (JObj [])]]) /\
  (forall v, json res = Resolved v ->
     console (exec (handleSave net) w) =
     console w ++ [[LStr "Erro ao salvar"; LVal v]]).
Proof.
  intros Hvalid Hnet Hok. apply missing_required_false in Hvalid.
  unfold run, exec. rewrite (handleSave_server_rejected net w res Hvalid Hnet Hok).
  simpl. unfold error_data.
  repeat split; intros x Hjson; rewrite Hjson; reflexivity.
Qed.

Lemma handleSave_error_body_witness :
  run (handleSave net_error_no_body) pothole_world = Normal tt /\
  alerts (exec (handleSave net_error_no_body) pothole_world) = [alert_save_failed] /\
  console (exec (handleSave net_error_no_body) pothole_world) =
    [[LStr "Erro ao salvar"; LVal (JObj [])]].
Proof.
  destruct (handleSave_error_body net_error_no_body pothole_world
              (mkResponse false (Rejected bad_json))) as (Hrun & Halert & Hempty & _).
  - unfold passes_validation. simpl. repeat split; discriminate.
  - reflexivity.
  - reflexivity.
  - split; [exact Hrun | split; [exact Halert |]].
    apply (Hempty bad_json). reflexivity.
Defined.

(** ** AcquireLocation and CapturePhoto *)

(** C6.  Whatever the Draft holds, when the foreground-location permission
    request answers with a status other than granted (denied in
    particular), [getLocation] shows the permission alert and returns:
    latitude and longitude keep their prior values (null if they were null),
    and title, description and photo are unchanged. *)
Theorem getLocation_denied w perm position :
  status perm <> "granted" ->
  alerts (exec (getLocation (Resolved perm) position) w) =
    alerts w ++ [alert_location_denied] /\
  latitude (screen (exec (getLocation (Resolved perm) position) w)) = latitude (screen w) /\
  longitude (screen (exec (getLocation (Resolved perm) position) w)) = longitude (screen w) /\
  title (screen (exec (getLocation (Resolved perm) position) w)) = title (screen w) /\
  description (screen (exec (getLocation (Resolved perm) position) w)) =
    description (screen w) /\
  photo (screen (exec (getLocation (Resolved perm) position) w)) = photo (screen w).
Proof.
  intro Hstatus. apply String.eqb_neq in Hstatus.
  unfold exec, getLocation, bind, await. rewrite Hstatus. simpl.
  repeat split.
Qed.

Lemma getLocation_denied_witness :
  alerts (exec (getLocation (Resolved permission_denied) (Resolved new_york)) initial_world) =
    [alert_location_denied] /\
  latitude (screen (exec (getLocation (Resolved permission_denied) (Resolved new_york))
                         initial_world)) = None /\
  longitude (screen (exec (getLocation (Resolved permission_denied) (Resolved new_york))
                          initial_world)) = None.
Proof.
  destruct (getLocation_denied initial_world permission_denied (Resolved new_york))
    as (Ha & Hlat & Hlon & _).
  - discriminate.
  - repeat split; assumption.
Defined.

(** With the permission granted and a position fix, both coordinates are
    stored and nothing else moves. *)
Lemma getLocation_granted w perm c :
  status perm = "granted" ->
  getLocation (Resolved perm) (Resolved c) w =
  (Normal tt,
   mkWorld (mkScreen (title (screen w)) (description (screen w))
                     (Some (coords_latitude c)) (Some (coords_longitude c))
                     (photo (screen w)) (places (screen w)) (loading (screen w)))
           (alerts w) (requests w) (console w)).
Proof.
  intro Hstatus. unfold getLocation, bind, await. rewrite Hstatus. reflexivity.
Qed.

(** C7.  Whatever photo the Draft holds, when the camera permission is
    granted and the user cancels the capture, [takePhoto] leaves the photo
    (and the rest of the world) as it was. *)
Theorem takePhoto_canceled w perm result :
  status perm = "granted" ->
  canceled result = true ->
  photo (screen (exec (takePhoto (Resolved perm) (Resolved result)) w)) = photo (screen w) /\
  exec (takePhoto (Resolved perm) (Resolved result)) w = w.
Proof.
  intros Hstatus Hcancel.
  unfold exec, takePhoto, bind, await. rewrite Hstatus, Hcancel. simpl.
  split; reflexivity.
Qed.

Lemma takePhoto_canceled_witness :
  photo (screen (exec (takePhoto (Resolved permission_granted) (Resolved capture_canceled))
                      busy_world)) = Some "file:///old.jpg".
Proof.
  apply (takePhoto_canceled busy_world permission_granted capture_canceled);
    reflexivity.
Defined.

(** The photo after an uncancelled capture whose first asset is [asset]. *)
Lemma takePhoto_first_asset w perm result asset rest :
  status perm = "granted" ->
  canceled result = false ->
  assets result = Some (asset :: rest) ->
  takePhoto (Resolved perm) (Resolved result) w =
  match as_truthy (base64 asset) with
  | Some data => setPhoto (Some ("data:image/jpeg;base64," ++ data)%string) w
  | None =>
      match as_truthy (uri asset) with
      | Some u => setPhoto (Some u) w
      | None => (Normal tt, w)
      end
  end.
Proof.
  intros Hstatus Hcancel Hassets.
  unfold takePhoto, bind, await, first_asset. rewrite Hstatus, Hcancel, Hassets. simpl.
  destruct (as_truthy (base64 asset)); [reflexivity |].
  destruct (as_truthy (uri asset)); reflexivity.
Qed.

(** C10.  When the camera permission is granted and the capture completes
    uncancelled with at least one asset, the first asset decides the photo:
    if it carries base64 data the photo becomes the data URI
    "data:image/jpeg;base64," followed by that data; if base64 is absent and
    the asset carries a URI the photo becomes that URI; if both are absent
    the photo is unchanged.  A field is absent when it is null, undefined or
    the empty string. *)
Theorem takePhoto_prefers_base64 w perm result asset rest :
  status perm = "granted" ->
  canceled result = false ->
  assets result = Some (asset :: rest) ->
  (forall data, carries (base64 asset) data ->
     photo (screen (exec (takePhoto (Resolved perm) (Resolved result)) w)) =
     Some ("data:image/jpeg;base64," ++ data)%string) /\
  (forall u, absent (base64 asset) -> carries (uri asset) u ->
     photo (screen (exec (takePhoto (Resolved perm) (Resolved result)) w)) = Some u) /\
  (absent (base64 asset) -> absent (uri asset) ->
     photo (screen (exec (takePhoto (Resolved perm) (Resolved result)) w)) =
     photo (screen w)).
Proof.
  intros Hstatus Hcancel Hassets.
  unfold exec. rewrite (takePhoto_first_asset w perm result asset rest Hstatus Hcancel Hassets).
  split; [| split].
  - intros data Hdata. apply as_truthy_some in Hdata. rewrite Hdata. reflexivity.
  - intros u Hno Hu. apply as_truthy_none in Hno. apply as_truthy_some in Hu.
    rewrite Hno, Hu. reflexivity.
  - intros Hno Hnone. apply as_truthy_none in Hno. apply as_truthy_none in Hnone.
    rewrite Hno, Hnone. reflexivity.
Qed.

Lemma takePhoto_prefers_base64_witness :
  photo (screen (exec (takePhoto (Resolved permission_granted)
                                 (Resolved (capture_of asset_with_base64))) busy_world)) =
    Some "data:image/jpeg;base64,/9j/4AAQSkZJRg==" /\
  photo (screen (exec (takePhoto (Resolved permission_granted)
                                 (Resolved (capture_of asset_uri_only))) busy_world)) =
    Some "file:///cache/ImagePicker/a1.jpg" /\
  photo (screen (exec (takePhoto (Resolved permission_granted)
                                 (Resolved (capture_of asset_bare))) busy_world)) =
    Some "file:///old.jpg".
Proof.
  split; [| split].
  - pose proof (takePhoto_prefers_base64 busy_world permission_granted
                  (capture_of asset_with_base64) asset_with_base64 []
                  eq_refl eq_refl eq_refl) as (H & _ & _).
    apply (H "/9j/4AAQSkZJRg=="). split; [reflexivity | discriminate].
  - pose proof (takePhoto_prefers_base64 busy_world permission_granted
                  (capture_of asset_uri_only) asset_uri_only []
                  eq_refl eq_refl eq_refl) as (_ & H & _).
    apply (H "file:///cache/ImagePicker/a1.jpg").
    + left. reflexivity.
    + split; [reflexivity | discriminate].
  - pose proof (takePhoto_prefers_base64 busy_world permission_granted
                  (capture_of asset_bare) asset_bare []
                  eq_refl eq_refl eq_refl) as (_ & _ & H).
    apply H; left; reflexivity.
Defined.

(** ** Initial load *)

(** A [fetch] that rejects: the error is logged, the alert is shown and the
    list is not touched. *)
Lemma fetchPlaces_transport_failure net w e :
  net list_request = Rejected e ->
  fetchPlaces net w =
  (Normal tt,
   mkWorld (screen w) (alerts w ++ [alert_load_failed])
           (requests w ++ [list_request]) (console w ++ [[LExn e]])).
Proof.
  intro Hnet. unfold fetchPlaces, try_catch, bind, call_fetch. simpl.
  rewrite Hnet. reflexivity.
Qed.

(** A response whose body does not parse, whatever its status: same. *)
Lemma fetchPlaces_unreadable_body net w res e :
  net list_request = Resolved res ->
  json res = Rejected e ->
  fetchPlaces net w =
  (Normal tt,
   mkWorld (screen w) (alerts w ++ [alert_load_failed])
           (requests w ++ [list_request]) (console w ++ [[LExn e]])).
Proof.
  intros Hnet Hjson. unfold fetchPlaces, try_catch, bind, call_fetch. simpl.
  rewrite Hnet. simpl. rewrite Hjson. reflexivity.
Qed.

(** A response whose body parses replaces the list, and [res.ok] is never
    read: the status plays no part. *)
Lemma fetchPlaces_parsed_body net w res data :
  net list_request = Resolved res ->
  json res = Resolved data ->
  fetchPlaces net w =
  (Normal tt,
   mkWorld (mkScreen (title (screen w)) (description (screen w)) (latitude (screen w))
                     (longitude (screen w)) (photo (screen w)) data (loading (screen w)))
           (alerts w) (requests w ++ [list_request]) (console w)).
Proof.
  intros Hnet Hjson. unfold fetchPlaces, try_catch, bind, call_fetch. simpl.
  rewrite Hnet. simpl. rewrite Hjson. reflexivity.
Qed.

(** C4 (the code departs from the claim).  On the initial load, a list
    request answered with a non-success status and a body that parses as
    JSON shows no alert at all, and the parsed body becomes the list. *)
Theorem fetchPlaces_error_status_unnoticed :
  (exists res, list_error_with_body list_request = Resolved res /\ ok res = false) /\
  alerts (exec (fetchPlaces list_error_with_body) initial_world) = [] /\
  places (screen (exec (fetchPlaces list_error_with_body) initial_world)) =
    [pothole_record].
Proof.
  unfold exec.
  rewrite (fetchPlaces_parsed_body list_error_with_body initial_world
             (mkResponse false (Resolved [pothole_record])) [pothole_record]);
    repeat split.
  exists (mkResponse false (Resolved [pothole_record])). split; reflexivity.
Qed.

(** The other failures of the initial load do what C4 says: alert shown,
    list still empty. *)
Lemma fetchPlaces_failures_alert :
  alerts (exec (fetchPlaces net_unreachable) initial_world) = [alert_load_failed] /\
  places (screen (exec (fetchPlaces net_unreachable) initial_world)) = [] /\
  alerts (exec (fetchPlaces list_error_no_body) initial_world) = [alert_load_failed] /\
  places (screen (exec (fetchPlaces list_error_no_body) initial_world)) = [].
Proof.
  unfold exec.
  rewrite (fetchPlaces_transport_failure net_unreachable initial_world network_down)
    by reflexivity.
  rewrite (fetchPlaces_unreadable_body list_error_no_body initial_world
             (mkResponse false (Rejected bad_json)) bad_json) by reflexivity.
  repeat split.
Qed.

(** ** The spec's end-to-end example *)

Example pothole_submission :
  handleSave net_created pothole_world =
  (Normal tt,
   mkWorld (mkScreen "" "" None None None [pothole_record] false)
           [alert_saved]
           [save_request pothole_screen]
           []).
Proof. reflexivity. Qed.

(** ** [handleSave]: every path at once *)

(** One run of [handleSave] has one of the three effects, whatever the
    network does. *)
Lemma handleSave_effect net w : SaveEffect w (exec (handleSave net) w).
Proof.
  unfold exec.
  destruct (missing_required (screen w)) eqn:Hguard.
  - rewrite (handleSave_invalid net w Hguard). now apply SaveBlocked.
  - destruct (net (save_request (screen w))) as [res|e] eqn:Hnet.
    + destruct (ok res) eqn:Hok.
      * destruct (json res) as [created|e] eqn:Hjson.
        -- rewrite (handleSave_created net w res created Hguard Hnet Hok Hjson).
           now apply SaveDone.
        -- rewrite (handleSave_unreadable_success net w res e Hguard Hnet Hok Hjson).
           apply SaveFailed; [assumption | now right].
      * rewrite (handleSave_server_rejected net w res Hguard Hnet Hok).
        apply SaveFailed; [assumption | now left].
    + rewrite (handleSave_transport_failure net w e Hguard Hnet).
      apply SaveFailed; [assumption | now right].
Qed.

(** X3.  For a Draft that passes validation the busy flag is false after
    [handleSave], whatever the network answered. *)
Theorem handleSave_busy_flag_released net w :
  passes_validation (screen w) ->
  loading (screen (exec (handleSave net) w)) = false.
Proof.
  intro Hvalid. apply missing_required_false in Hvalid.
  destruct (handleSave_effect net w) as [Hguard | a line Hguard _ | created Hguard].
  - congruence.
  - reflexivity.
  - reflexivity.
Qed.

Lemma handleSave_busy_flag_released_witness :
  loading (screen (exec (handleSave net_unreachable) pothole_world)) = false /\
  loading (screen (exec (handleSave net_created) pothole_world)) = false.
Proof.
  assert (Hvalid : passes_validation (screen pothole_world)).
  { unfold passes_validation. simpl. repeat split; discriminate. }
  split.
  - exact (handleSave_busy_flag_released net_unreachable pothole_world Hvalid).
  - exact (handleSave_busy_flag_released net_created pothole_world Hvalid).
Defined.

(** X4.  A run of [handleSave] either puts one record at the head of the list
    and empties the Draft, or leaves the Draft and the list exactly as they
    were; it never drops, reorders or rewrites a listed record. *)
Theorem handleSave_prepends_or_keeps net w :
  (exists created,
     places (screen (exec (handleSave net) w)) = created :: places (screen w) /\
     draft (screen (exec (handleSave net) w)) = empty_draft) \/
  (places (screen (exec (handleSave net) w)) = places (screen w) /\
   draft (screen (exec (handleSave net) w)) = draft (screen w)).
Proof.
  destruct (handleSave_effect net w) as [Hguard | a line Hguard _ | created Hguard].
  - right. split; reflexivity.
  - right. split; reflexivity.
  - left. exists created. split; reflexivity.
Qed.

(** X5.  A Draft that passes validation is sent exactly once: one POST to
    [/api/places] with the JSON content type, whose body holds the five
    Draft fields. *)
Theorem handleSave_posts_draft_once net w :
  passes_validation (screen w) ->
  requests (exec (handleSave net) w) =
  requests w ++
  [mkRequest "http://192.168.1.106:8080/api/places" POST
             [("Content-Type", "application/json")]
             (Some (JObj [("title", JStr (title (screen w)));
                          ("description", JStr (description (screen w)));
                          ("latitude", json_of_number (latitude (screen w)));
                          ("longitude", json_of_number (longitude (screen w)));
                          ("photo", json_of_string (photo (screen w)))]))].
Proof.
  intro Hvalid. apply missing_required_false in Hvalid.
  destruct (handleSave_effect net w) as [Hguard | a line Hguard _ | created Hguard].
  - congruence.
  - reflexivity.
  - reflexivity.
Qed.

Lemma handleSave_posts_draft_once_witness :
  requests (exec (handleSave net_error_json) busy_world) =
  [mkRequest "http://192.168.1.106:8080/api/places" POST
             [("Content-Type", "application/json")]
             (Some (JObj [("title", JStr "Pothole");
                          ("description", JStr "Large crack on 5th Ave");
                          ("latitude", JNum 40.712%float);
                          ("longitude", JNum (-74.006)%float);
                          ("photo", JStr "file:///old.jpg")]))].
Proof.
  apply (handleSave_posts_draft_once net_error_json busy_world).
  unfold passes_validation. simpl. repeat split; discriminate.
Defined.

(** X6.  When [fetch] itself rejects, the Draft and the list are what they were,
    the busy flag is false, the error is logged and the connection-failed
    alert is the one alert shown. *)
Theorem handleSave_transport_failure_frame net w e :
  passes_validation (screen w) ->
  net (save_request (screen w)) = Rejected e ->
  run (handleSave net) w = Normal tt /\
  draft (screen (exec (handleSave net) w)) = draft (screen w) /\
  places (screen (exec (handleSave net) w)) = places (screen w) /\
  loading (screen (exec (handleSave net) w)) = false /\
  alerts (exec (handleSave net) w) = alerts w ++ [alert_connection_failed] /\
  console (exec (handleSave net) w) = console w ++ [[LExn e]].
Proof.
  intros Hvalid Hnet. apply missing_required_false in Hvalid.
  unfold run, exec. rewrite (handleSave_transport_failure net w e Hvalid Hnet).
  simpl. repeat split.
Qed.

Lemma handleSave_transport_failure_frame_witness :
  draft (screen (exec (handleSave net_unreachable) busy_world)) = draft (screen busy_world) /\
  places (screen (exec (handleSave net_unreachable) busy_world)) = [pothole_record] /\
  alerts (exec (handleSave net_unreachable) busy_world) = [alert_connection_failed].
Proof.
  destruct (handleSave_transport_failure_frame net_unreachable busy_world network_down)
    as (_ & Hd & Hl & _ & Ha & _).
  - unfold passes_validation. simpl. repeat split; discriminate.
  - reflexivity.
  - repeat split; assumption.
Defined.

(** X7.  A success status whose body does not parse is reported like a lost
    connection: the connection-failed alert is shown, nothing is added to
    the list and the Draft is kept, although the request was sent. *)
Theorem handleSave_success_without_record net w res e :
  passes_validation (screen w) ->
  net (save_request (screen w)) = Resolved res ->
  ok res = true ->
  json res = Rejected e ->
  alerts (exec (handleSave net) w) = alerts w ++ [alert_connection_failed] /\
  places (screen (exec (handleSave net) w)) = places (screen w) /\
  draft (screen (exec (handleSave net) w)) = draft (screen w) /\
  loading (screen (exec (handleSave net) w)) = false /\
  requests (exec (handleSave net) w) = requests w ++ [save_request (screen w)].
Proof.
  intros Hvalid Hnet Hok Hjson. apply missing_required_false in Hvalid.
  unfold exec. rewrite (handleSave_unreadable_success net w res e Hvalid Hnet Hok Hjson).
  simpl. repeat split.
Qed.

Lemma handleSave_success_without_record_witness :
  alerts (exec (handleSave net_truncated_success) busy_world) = [alert_connection_failed] /\
  places (screen (exec (handleSave net_truncated_success) busy_world)) = [pothole_record] /\
  draft (screen (exec (handleSave net_truncated_success) busy_world)) =
    draft (screen busy_world).
Proof.
  destruct (handleSave_success_without_record net_truncated_success busy_world
              (mkResponse true (Rejected bad_json)) bad_json)
    as (Ha & Hl & Hd & _ & _).
  - unfold passes_validation. simpl. repeat split; discriminate.
  - reflexivity.
  - reflexivity.
  - reflexivity.
  - repeat split; assumption.
Defined.

(** ** Submitting twice *)

(** The request depends on the Draft only, not on the busy flag. *)
Lemma save_request_released s : save_request (released s) = save_request s.
Proof. reflexivity. Qed.

Lemma missing_required_released s : missing_required (released s) = missing_required s.
Proof. reflexivity. Qed.

(** X8.  After a successful save the Draft is empty, so pressing save again
    sends nothing: the second run only shows the required-fields alert, and
    the record is listed once. *)
Theorem handleSave_again_after_success net net' w res created :
  passes_validation (screen w) ->
  net (save_request (screen w)) = Resolved res ->
  ok res = true ->
  json res = Resolved created ->
  requests (exec (handleSave net') (exec (handleSave net) w)) =
    requests w ++ [save_request (screen w)] /\
  alerts (exec (handleSave net') (exec (handleSave net) w)) =
    alerts w ++ [alert_saved; alert_required_fields] /\
  places (screen (exec (handleSave net') (exec (handleSave net) w))) =
    created :: places (screen w).
Proof.
  intros Hvalid Hnet Hok Hjson. apply missing_required_false in Hvalid.
  assert (Hfirst : exec (handleSave net) w =
                   mkWorld (mkScreen "" "" None None None (created :: places (screen w)) false)
                           (alerts w ++ [alert_saved])
                           (requests w ++ [save_request (screen w)]) (console w)).
  { unfold exec. now rewrite (handleSave_created net w res created Hvalid Hnet Hok Hjson). }
  rewrite Hfirst. unfold exec. rewrite handleSave_invalid by reflexivity.
  cbn [snd screen alerts requests places]. rewrite <- app_assoc. repeat split.
Qed.

Lemma handleSave_again_after_success_witness :
  requests (exec (handleSave net_created) (exec (handleSave net_created) pothole_world)) =
    [save_request pothole_screen] /\
  alerts (exec (handleSave net_created) (exec (handleSave net_created) pothole_world)) =
    [alert_saved; alert_required_fields] /\
  places (screen (exec (handleSave net_created)
                       (exec (handleSave net_created) pothole_world))) =
    [pothole_record].
Proof.
  apply (handleSave_again_after_success net_created net_created pothole_world
           (mkResponse true (Resolved pothole_record)) pothole_record).
  - unfold passes_validation. simpl. repeat split; discriminate.
  - reflexivity.
  - reflexivity.
  - reflexivity.
Defined.

(** X9.  After a rejected save the Draft is intact, so pressing save again sends
    the very same request; if that one succeeds the record is listed, the
    Draft is emptied, and the two alerts shown are the failure then the
    success. *)
Theorem handleSave_retry_after_rejection net net' w res res' created :
  passes_validation (screen w) ->
  net (save_request (screen w)) = Resolved res ->
  ok res = false ->
  net' (save_request (screen w)) = Resolved res' ->
  ok res' = true ->
  json res' = Resolved created ->
  requests (exec (handleSave net') (exec (handleSave net) w)) =
    requests w ++ [save_request (screen w); save_request (screen w)] /\
  alerts (exec (handleSave net') (exec (handleSave net) w)) =
    alerts w ++ [alert_save_failed; alert_saved] /\
  places (screen (exec (handleSave net') (exec (handleSave net) w))) =
    created :: places (screen w) /\
  draft (screen (exec (handleSave net') (exec (handleSave net) w))) = empty_draft.
Proof.
  intros Hvalid Hnet Hok Hnet' Hok' Hjson'. apply missing_required_false in Hvalid.
  assert (Hfirst : exec (handleSave net) w =
                   mkWorld (released (screen w)) (alerts w ++ [alert_save_failed])
                           (requests w ++ [save_request (screen w)])
                           (console w ++ [[LStr "Erro ao salvar"; LVal (error_data res)]])).
  { unfold exec. now rewrite (handleSave_server_rejected net w res Hvalid Hnet Hok). }
  rewrite Hfirst. unfold exec.
  rewrite (handleSave_created net' _ res' created);
    cbn [screen]; rewrite ?missing_required_released, ?save_request_released;
    try assumption.
  cbn [snd screen alerts requests places draft title description latitude longitude photo
       released].
  rewrite <- !app_assoc. repeat split.
Qed.

Lemma handleSave_retry_after_rejection_witness :
  requests (exec (handleSave net_created) (exec (handleSave net_error_json) pothole_world)) =
    [save_request pothole_screen; save_request pothole_screen] /\
  alerts (exec (handleSave net_created) (exec (handleSave net_error_json) pothole_world)) =
    [alert_save_failed; alert_saved] /\
  places (screen (exec (handleSave net_created)
                       (exec (handleSave net_error_json) pothole_world))) =
    [pothole_record] /\
  draft (screen (exec (handleSave net_created)
                      (exec (handleSave net_error_json) pothole_world))) = empty_draft.
Proof.
  apply (handleSave_retry_after_rejection net_error_json net_created pothole_world
           (mkResponse false (Resolved (JObj [("error", JStr "invalid")])))
           (mkResponse true (Resolved pothole_record)) pothole_record).
  - unfold passes_validation. simpl. repeat split; discriminate.
  - reflexivity.
  - reflexivity.
  - reflexivity.
  - reflexivity.
  - reflexivity.
Defined.

(** ** [getLocation]: the paths the claims leave out *)

(** X10.  With the permission granted and a position fix, [getLocation] stores
    the latitude and longitude of the fix over whatever coordinates the
    Draft held, shows no alert, and changes nothing else. *)
Theorem getLocation_stores_fix w perm c :
  status perm = "granted" ->
  run (getLocation (Resolved perm) (Resolved c)) w = Normal tt /\
  exec (getLocation (Resolved perm) (Resolved c)) w =
  mkWorld (with_coords (screen w) (Some (coords_latitude c)) (Some (coords_longitude c)))
          (alerts w) (requests w) (console w).
Proof.
  intro Hstatus. unfold run, exec. rewrite (getLocation_granted w perm c Hstatus).
  split; reflexivity.
Qed.

Lemma getLocation_stores_fix_witness :
  exec (getLocation (Resolved permission_granted) (Resolved new_york)) null_island_world =
  mkWorld (mkScreen "Buoy" "Station 13010" (Some 40.712%float) (Some (-74.006)%float)
                    None [] false)
          [] [] [].
Proof.
  apply (getLocation_stores_fix null_island_world permission_granted new_york).
  reflexivity.
Defined.

(** X11.  [getLocation] has no [try]: when the position fix fails after the
    permission was granted, the rejection leaves the handler uncaught, no
    alert is shown and the world is unchanged. *)
Theorem getLocation_fix_failure_uncaught w perm e :
  status perm = "granted" ->
  getLocation (Resolved perm) (Rejected e) w = (Throw e, w).
Proof.
  intro Hstatus. unfold getLocation, bind, await. rewrite Hstatus. simpl.
  destruct w as [s a r c]. reflexivity.
Qed.

Lemma getLocation_fix_failure_uncaught_witness :
  getLocation (Resolved permission_granted) (Rejected position_unavailable) busy_world =
  (Throw position_unavailable, busy_world).
Proof.
  apply (getLocation_fix_failure_uncaught busy_world permission_granted position_unavailable).
  reflexivity.
Defined.

(** X12.  Whatever the collaborators answer, [getLocation] touches nothing but
    the two coordinates: title, description, photo, list and busy flag are
    unchanged, no request is issued and nothing is logged. *)
Theorem getLocation_frame permission position w :
  title (screen (exec (getLocation permission position) w)) = title (screen w) /\
  description (screen (exec (getLocation permission position) w)) = description (screen w) /\
  photo (screen (exec (getLocation permission position) w)) = photo (screen w) /\
  places (screen (exec (getLocation permission position) w)) = places (screen w) /\
  loading (screen (exec (getLocation permission position) w)) = loading (screen w) /\
  requests (exec (getLocation permission position) w) = requests w /\
  console (exec (getLocation permission position) w) = console w.
Proof.
  unfold exec, getLocation, bind, await.
  destruct permission as [perm|e]; simpl; [| repeat split].
  destruct (String.eqb (status perm) "granted"); simpl; [| repeat split].
  destruct position as [c|e]; simpl; repeat split.
Qed.

(** The coordinates after any run of [getLocation] are both the old ones
    or both those of the fix. *)
Lemma getLocation_coordinates permission position w :
  (latitude (screen (exec (getLocation permission position) w)) = latitude (screen w) /\
   longitude (screen (exec (getLocation permission position) w)) = longitude (screen w)) \/
  (exists c,
     latitude (screen (exec (getLocation permission position) w)) = Some (coords_latitude c) /\
     longitude (screen (exec (getLocation permission position) w)) = Some (coords_longitude c)).
Proof.
  unfold exec, getLocation, bind, await.
  destruct permission as [perm|e]; simpl; [| left; split; reflexivity].
  destruct (String.eqb (status perm) "granted"); simpl; [| left; split; reflexivity].
  destruct position as [c|e]; simpl.
  - right. exists c. split; reflexivity.
  - left. split; reflexivity.
Qed.

(** ** [takePhoto]: the paths the claims leave out *)

(** Every run of [takePhoto] leaves the world alone, or adds the
    camera-permission alert, or stores a non-empty photo. *)
Lemma takePhoto_cases permission shot w :
  exec (takePhoto permission shot) w = w \/
  exec (takePhoto permission shot) w =
    mkWorld (screen w) (alerts w ++ [alert_camera_denied]) (requests w) (console w) \/
  exists p, p <> "" /\
    exec (takePhoto permission shot) w =
    mkWorld (with_photo (screen w) (Some p)) (alerts w) (requests w) (console w).
Proof.
  destruct w as [s shown sent logged].
  unfold exec, takePhoto, bind, await.
  destruct permission as [perm|e]; simpl; [| left; reflexivity].
  destruct (String.eqb (status perm) "granted"); simpl; [| right; left; reflexivity].
  destruct shot as [result|e]; simpl; [| left; reflexivity].
  destruct (canceled result); simpl; [left; reflexivity |].
  destruct (first_asset result) as [asset|]; [| left; reflexivity].
  destruct (as_truthy (base64 asset)) as [data|] eqn:Hdata.
  - right. right. exists ("data:image/jpeg;base64," ++ data)%string.
    split; [discriminate | reflexivity].
  - destruct (as_truthy (uri asset)) as [u|] eqn:Huri; [| left; reflexivity].
    right. right. exists u. split; [| reflexivity].
    apply as_truthy_some in Huri. exact (proj2 Huri).
Qed.

(** X13.  When the camera permission is anything but granted, [takePhoto] shows
    the camera-permission alert and returns: the camera is not consulted
    (the result is the same for every launch outcome) and the screen state
    is unchanged. *)
Theorem takePhoto_denied w perm shot :
  status perm <> "granted" ->
  takePhoto (Resolved perm) shot w =
  (Normal tt,
   mkWorld (screen w) (alerts w ++ [alert_camera_denied]) (requests w) (console w)).
Proof.
  intro Hstatus. apply String.eqb_neq in Hstatus.
  unfold takePhoto, bind, await. rewrite Hstatus. reflexivity.
Qed.

Lemma takePhoto_denied_witness :
  takePhoto (Resolved permission_denied) (Resolved (capture_of asset_with_base64)) busy_world =
  (Normal tt, mkWorld (screen busy_world) [alert_camera_denied] [] []).
Proof.
  apply (takePhoto_denied busy_world permission_denied
           (Resolved (capture_of asset_with_base64))).
  discriminate.
Defined.

(** X14.  An uncancelled capture that brings no asset ([assets] null or empty)
    changes nothing and shows nothing. *)
Theorem takePhoto_without_asset w perm result :
  status perm = "granted" ->
  canceled result = false ->
  assets result = None \/ assets result = Some [] ->
  takePhoto (Resolved perm) (Resolved result) w = (Normal tt, w).
Proof.
  intros Hstatus Hcancel Hassets.
  unfold takePhoto, bind, await, first_asset. rewrite Hstatus, Hcancel. simpl.
  destruct Hassets as [-> | ->]; reflexivity.
Qed.

Lemma takePhoto_without_asset_witness :
  takePhoto (Resolved permission_granted) (Resolved capture_without_assets) busy_world =
  (Normal tt, busy_world).
Proof.
  apply (takePhoto_without_asset busy_world permission_granted capture_without_assets).
  - reflexivity.
  - reflexivity.
  - right. reflexivity.
Defined.

(** X15.  Only the first asset of a capture is looked at: the assets after it
    make no difference to what [takePhoto] does. *)
Theorem takePhoto_first_asset_only permission c asset rest w :
  takePhoto permission (Resolved (mkPickerResult c (Some (asset :: rest)))) w =
  takePhoto permission (Resolved (mkPickerResult c (Some [asset]))) w.
Proof.
  unfold takePhoto, bind, await.
  destruct permission as [perm|e]; [| reflexivity].
  destruct (negb (String.eqb (status perm) "granted")); reflexivity.
Qed.

(** X16.  Whatever the collaborators answer, [takePhoto] touches nothing but the
    photo: title, description, coordinates, list and busy flag are
    unchanged, no request is issued and nothing is logged. *)
Theorem takePhoto_frame permission shot w :
  title (screen (exec (takePhoto permission shot) w)) = title (screen w) /\
  description (screen (exec (takePhoto permission shot) w)) = description (screen w) /\
  latitude (screen (exec (takePhoto permission shot) w)) = latitude (screen w) /\
  longitude (screen (exec (takePhoto permission shot) w)) = longitude (screen w) /\
  places (screen (exec (takePhoto permission shot) w)) = places (screen w) /\
  loading (screen (exec (takePhoto permission shot) w)) = loading (screen w) /\
  requests (exec (takePhoto permission shot) w) = requests w /\
  console (exec (takePhoto permission shot) w) = console w.
Proof.
  destruct (takePhoto_cases permission shot w) as [-> | [-> | (p & _ & ->)]];
    repeat split.
Qed.

(** X17.  [takePhoto] never removes a photo and never stores an empty one: after
    any run the photo is the prior one or a non-empty string. *)
Theorem takePhoto_keeps_or_replaces permission shot w :
  photo (screen (exec (takePhoto permission shot) w)) = photo (screen w) \/
  exists p, p <> "" /\ photo (screen (exec (takePhoto permission shot) w)) = Some p.
Proof.
  destruct (takePhoto_cases permission shot w) as [-> | [-> | (p & Hp & ->)]].
  - left. reflexivity.
  - left. reflexivity.
  - right. exists p. split; [exact Hp | reflexivity].
Qed.

(** ** [fetchPlaces]: every path at once *)

(** X18.  [fetchPlaces] catches every failure: it always completes normally,
    issues exactly one request, a body-less GET of [/api/places], and never
    touches the Draft or the busy flag. *)
Theorem fetchPlaces_one_get net w :
  run (fetchPlaces net) w = Normal tt /\
  requests (exec (fetchPlaces net) w) =
    requests w ++ [mkRequest "http://192.168.1.106:8080/api/places" GET [] None] /\
  draft (screen (exec (fetchPlaces net) w)) = draft (screen w) /\
  loading (screen (exec (fetchPlaces net) w)) = loading (screen w).
Proof.
  unfold run, exec.
  destruct (net list_request) as [res|e] eqn:Hnet.
  - destruct (json res) as [data|e] eqn:Hjson.
    + rewrite (fetchPlaces_parsed_body net w res data Hnet Hjson). repeat split.
    + rewrite (fetchPlaces_unreadable_body net w res e Hnet Hjson). repeat split.
  - rewrite (fetchPlaces_transport_failure net w e Hnet). repeat split.
Qed.


(** ** Invariants of the running screen *)

(** A property kept by every event holds along every sequence of events. *)
Lemma fold_step_invariant (P : World -> Prop) :
  (forall w e, P w -> P (step w e)) ->
  forall events w, P w -> P (fold_left step events w).
Proof.
  intros Hstep events. induction events as [|e events IH]; intros w Hw.
  - exact Hw.
  - simpl. apply IH. apply Hstep. exact Hw.
Qed.

(** The three things one run of [getLocation] can do. *)
Lemma getLocation_cases permission position w :
  exec (getLocation permission position) w = w \/
  exec (getLocation permission position) w =
    mkWorld (screen w) (alerts w ++ [alert_location_denied]) (requests w) (console w) \/
  exists c,
    exec (getLocation permission position) w =
    mkWorld (with_coords (screen w) (Some (coords_latitude c)) (Some (coords_longitude c)))
            (alerts w) (requests w) (console w).
Proof.
  destruct w as [s shown sent logged].
  unfold exec, getLocation, bind, await.
  destruct permission as [perm|e]; simpl; [| left; reflexivity].
  destruct (String.eqb (status perm) "granted"); simpl; [| right; left; reflexivity].
  destruct position as [c|e]; simpl; [| left; reflexivity].
  right. right. exists c. reflexivity.
Qed.

(** The mount leaves the Draft empty and the busy flag down, and has sent
    the list request only. *)
Lemma mount_world net :
  draft (screen (mount net)) = empty_draft /\
  loading (screen (mount net)) = false /\
  requests (mount net) = [list_request].
Proof.
  unfold mount, exec.
  destruct (net list_request) as [res|e] eqn:Hnet.
  - destruct (json res) as [data|e] eqn:Hjson.
    + rewrite (fetchPlaces_parsed_body net _ res data Hnet Hjson). repeat split.
    + rewrite (fetchPlaces_unreadable_body net _ res e Hnet Hjson). repeat split.
  - rewrite (fetchPlaces_transport_failure net _ e Hnet). repeat split.
Qed.

(** X20.  Between two handler runs the busy flag is down: every handler that
    raises it has released it by the time it completes, so the save button
    is never left disabled. *)
Theorem session_never_stuck_busy net events :
  loading (screen (session net events)) = false.
Proof.
  unfold session.
  apply (fold_step_invariant (fun w => loading (screen w) = false)).
  - intros w e Hidle. destruct e as [text | text | p q | p q | post]; simpl.
    + exact Hidle.
    + exact Hidle.
    + destruct (getLocation_cases p q w) as [-> | [-> | (c & ->)]]; exact Hidle.
    + destruct (takePhoto_cases p q w) as [-> | [-> | (ph & _ & ->)]]; exact Hidle.
    + rewrite Hidle.
      destruct (handleSave_effect post w) as [_ | a line _ _ | created _];
        [exact Hidle | reflexivity | reflexivity].
  - apply mount_world.
Qed.

(** X21.  Latitude and longitude are always both null or both set: the Draft
    never holds half a position. *)
Theorem session_coordinates_paired net events :
  coordinates_paired (screen (session net events)).
Proof.
  unfold session.
  apply (fold_step_invariant (fun w => coordinates_paired (screen w))).
  - intros w e Hpair. destruct e as [text | text | p q | p q | post]; simpl.
    + exact Hpair.
    + exact Hpair.
    + destruct (getLocation_cases p q w) as [-> | [-> | (c & ->)]];
        [exact Hpair | exact Hpair |].
      unfold coordinates_paired. simpl. split; discriminate.
    + destruct (takePhoto_cases p q w) as [-> | [-> | (ph & _ & ->)]]; exact Hpair.
    + destruct (loading (screen w)); [exact Hpair |].
      destruct (handleSave_effect post w) as [_ | a line _ _ | created _];
        [exact Hpair | exact Hpair |].
      unfold coordinates_paired. simpl. split; reflexivity.
  - destruct (mount_world net) as (Hdraft & _ & _).
    unfold draft, empty_draft in Hdraft. injection Hdraft as _ _ Hlat Hlon _.
    unfold coordinates_paired. rewrite Hlat, Hlon. split; reflexivity.
Qed.

(** X22.  The photo is always null or a non-empty string: no handler stores an
    empty photo. *)
Theorem session_photo_usable net events :
  photo_usable (screen (session net events)).
Proof.
  unfold session.
  apply (fold_step_invariant (fun w => photo_usable (screen w))).
  - intros w e Hphoto. destruct e as [text | text | p q | p q | post]; simpl.
    + exact Hphoto.
    + exact Hphoto.
    + destruct (getLocation_cases p q w) as [-> | [-> | (c & ->)]]; exact Hphoto.
    + destruct (takePhoto_cases p q w) as [-> | [-> | (ph & Hne & ->)]];
        [exact Hphoto | exact Hphoto |].
      unfold photo_usable. simpl. intro Heq. injection Heq as Heq. contradiction.
    + destruct (loading (screen w)); [exact Hphoto |].
      destruct (handleSave_effect post w) as [_ | a line _ _ | created _];
        [exact Hphoto | exact Hphoto |].
      unfold photo_usable. simpl. discriminate.
  - destruct (mount_world net) as (Hdraft & _ & _).
    unfold draft, empty_draft in Hdraft. injection Hdraft as _ _ _ _ Hph.
    unfold photo_usable. rewrite Hph. discriminate.
Qed.

(** X23.  Every request the screen ever sends is the list request or the POST of
    a Draft that passes validation: an incomplete Draft is never
    submitted, and no other endpoint is contacted. *)
Theorem session_requests_well_formed net events :
  Forall well_formed_request (requests (session net events)).
Proof.
  unfold session.
  apply (fold_step_invariant (fun w => Forall well_formed_request (requests w))).
  - intros w e Hreq. destruct e as [text | text | p q | p q | post]; simpl.
    + exact Hreq.
    + exact Hreq.
    + destruct (getLocation_cases p q w) as [-> | [-> | (c & ->)]]; exact Hreq.
    + destruct (takePhoto_cases p q w) as [-> | [-> | (ph & _ & ->)]]; exact Hreq.
    + destruct (loading (screen w)); [exact Hreq |].
      assert (Hsent : missing_required (screen w) = false ->
                      Forall well_formed_request (requests w ++ [save_request (screen w)])).
      { intro Hguard. apply Forall_app. split; [exact Hreq |].
        apply Forall_cons; [| apply Forall_nil].
        right. exists (screen w). split; [| reflexivity].
        apply missing_required_false. exact Hguard. }
      destruct (handleSave_effect post w) as [_ | a line Hguard _ | created Hguard].
      * exact Hreq.
      * apply Hsent. exact Hguard.
      * apply Hsent. exact Hguard.
  - destruct (mount_world net) as (_ & _ & ->).
    constructor; [left; reflexivity | constructor].
Qed.

(** X24.  What the initial load listed stays listed, in place, at the tail of the
    list: later events only put records in front of it. *)
Theorem session_keeps_loaded_places net events :
  exists newer,
    places (screen (session net events)) = newer ++ places (screen (mount net)).
Proof.
  unfold session.
  apply (fold_step_invariant
           (fun w => exists newer, places (screen w) = newer ++ places (screen (mount net)))).
  - intros w e (newer & Hnewer). destruct e as [text | text | p q | p q | post]; simpl.
    + exists newer. exact Hnewer.
    + exists newer. exact Hnewer.
    + exists newer.
      destruct (getLocation_cases p q w) as [-> | [-> | (c & ->)]]; exact Hnewer.
    + exists newer.
      destruct (takePhoto_cases p q w) as [-> | [-> | (ph & _ & ->)]]; exact Hnewer.
    + destruct (loading (screen w)); [exists newer; exact Hnewer |].
      destruct (handleSave_effect post w) as [_ | a line _ _ | created _].
      * exists newer. exact Hnewer.
      * exists newer. exact Hnewer.
      * exists (created :: newer). simpl. rewrite Hnewer. reflexivity.
  - exists []. reflexivity.
Qed.

(** X25.  Filling the form the intended way makes it submittable: after typing a
    non-empty title and description and obtaining a position fix with the
    permission granted, pressing save on an idle screen sends the POST with
    exactly what was entered. *)
Theorem filled_form_is_submitted w t d perm c net :
  t <> "" ->
  d <> "" ->
  status perm = "granted" ->
  loading (screen w) = false ->
  requests (fold_left step
              [ChangeTitle t; ChangeDescription d;
               PressLocation (Resolved perm) (Resolved c); PressSave net] w) =
  requests w ++
  [save_request (mkScreen t d (Some (coords_latitude c)) (Some (coords_longitude c))
                          (photo (screen w)) (places (screen w)) false)].
Proof.
  intros Ht Hd Hstatus Hidle. cbn [fold_left step].
  assert (Hfilled :
            exec (getLocation (Resolved perm) (Resolved c))
                 (exec (setDescription d) (exec (setTitle t) w)) =
            mkWorld (mkScreen t d (Some (coords_latitude c)) (Some (coords_longitude c))
                              (photo (screen w)) (places (screen w)) false)
                    (alerts w) (requests w) (console w)).
  { unfold exec at 1. rewrite getLocation_granted by exact Hstatus.
    cbn. rewrite Hidle. reflexivity. }
  rewrite Hfilled. cbn [screen loading].
  set (w1 := mkWorld _ _ _ _).
  assert (Hvalid : missing_required (screen w1) = false).
  { apply missing_required_false. unfold passes_validation, w1. simpl.
    repeat split; try assumption; discriminate. }
  destruct (handleSave_effect net w1) as [Hguard | a line _ _ | created _].
  - congruence.
  - reflexivity.
  - reflexivity.
Qed.

Lemma filled_form_is_submitted_witness :
  requests (fold_left step
              [ChangeTitle "Pothole"; ChangeDescription "Large crack on 5th Ave";
               PressLocation (Resolved permission_granted) (Resolved new_york);
               PressSave net_created] initial_world) =
  [save_request pothole_screen].
Proof.
  apply (filled_form_is_submitted initial_world "Pothole" "Large crack on 5th Ave"
           permission_granted new_york net_created).
  - discriminate.
  - discriminate.
  - reflexivity.
  - reflexivity.
Defined.

(** X2.  Each run of [handleSave] shows exactly one alert, and it is one of the
    four the handler knows: required fields, save failed, connection failed
    or saved. *)
Theorem handleSave_shows_one_alert net w :
  exists a,
    alerts (exec (handleSave net) w) = alerts w ++ [a] /\
    (a = alert_required_fields \/ a = alert_save_failed \/
     a = alert_connection_failed \/ a = alert_saved).
Proof.
  destruct (handleSave_effect net w) as [_ | a line _ [-> | ->] | created _].
  - exists alert_required_fields. split; [reflexivity | now left].
  - exists alert_save_failed. split; [reflexivity | now right; left].
  - exists alert_connection_failed. split; [reflexivity | now right; right; left].
  - exists alert_saved. split; [reflexivity | now right; right; right].
Qed.
